(** * Conversational memory: [llama_index.core.memory.types]

    A shallow embedding of the memory tier of
    [llama-index-core/llama_index/core/memory/types.py] and the properties
    of its short-term ([BaseMemory], [BaseChatStoreMemory]) and long-term
    ([LongTermMemory]) interfaces.

    Python methods mutate objects reached through references and may raise.
    A method is therefore a function from the state it runs in to an
    [outcome]: either it returned a value, or it raised, and in both cases
    it leaves a state behind. *)

From stdpp Require Import gmap strings list sorting.
From Stdlib Require Import ZArith QArith Qcanon Sorted.

Set Warnings "-register-all".
Close Scope Qc_scope.
Close Scope Q_scope.
Open Scope string_scope.
Open Scope list_scope.

(** ** Exceptions, outcomes and the method monad *)

(** A raised Python exception, identified by the name of its class. *)
Inductive exception : Type :=
| Exception (type_name : string).

Inductive outcome (St A : Type) : Type :=
| Returned (a : A) (s : St)
| Raised (e : exception) (s : St).
Arguments Returned {St A} a s.
Arguments Raised {St A} e s.

(** [M St A]: a method body running on a state [St], returning an [A]. *)
Definition M (St A : Type) : Type := St -> outcome St A.

Definition ret {St A} (a : A) : M St A := fun s => Returned a s.

(** Sequencing of statements: an exception raised by the first statement
    propagates, and what follows is not run. *)
Definition bind {St A B} (c : M St A) (k : A -> M St B) : M St B :=
  fun s =>
    match c s with
    | Returned a s' => k a s'
    | Raised e s' => Raised e s'
    end.

Declare Scope py_scope.
Delimit Scope py_scope with py.
Notation "x <- c1 ;; c2" := (bind c1 (fun x => c2))
  (at level 100, c1 at next level, right associativity) : py_scope.
Notation "c1 ;; c2" := (bind c1 (fun _ => c2))
  (at level 100, right associativity) : py_scope.
Open Scope py_scope.

(** What the caller of a method sees: the value returned or the exception
    raised. *)
Definition observe {St A} (o : outcome St A) : A + exception :=
  match o with
  | Returned a _ => inl a
  | Raised e _ => inr e
  end.

(** The state a method leaves behind, however it ended. *)
Definition final_state {St A} (o : outcome St A) : St :=
  match o with
  | Returned _ s => s
  | Raised _ s => s
  end.

(** ** Coroutines

    An [async def] produces a coroutine.  Its body runs in segments that are
    separated by the points at which it yields to the event loop; other
    tasks can only run between two segments. *)
Inductive Coroutine (St A : Type) : Type :=
| Finish (body : M St A)
| Suspend (segment : M St unit) (rest : Coroutine St A).
Arguments Finish {St A} body.
Arguments Suspend {St A} segment rest.

(** The number of points at which a coroutine hands control back. *)
Fixpoint suspension_points {St A} (c : Coroutine St A) : nat :=
  match c with
  | Finish _ => 0
  | Suspend _ rest => S (suspension_points rest)
  end.

(** Awaiting a coroutine while no other task runs in between. *)
Fixpoint await {St A} (c : Coroutine St A) : M St A :=
  match c with
  | Finish body => body
  | Suspend segment rest => segment ;; await rest
  end.

(** ** Messages

    [ChatMessage] is imported from [llama_index.core.base.llms.types]. *)

(** Modelled from the spec: the role enumeration of a message (section 3,
    "role (enum: system/user/assistant/tool/...)"); the defining module is
    not part of the source. *)
Inductive MessageRole : Type :=
| SYSTEM | USER | ASSISTANT | TOOL.

(** Modelled from the spec: a message is an immutable value with a role and
    a textual content (section 3); the defining module is not part of the
    source. *)
Record ChatMessage : Type := mkChatMessage {
  role : MessageRole;
  content : string
}.

(** ** Serialized values

    What [model_dump] produces: a [dict] from field names to plain data. *)
Inductive value : Type :=
| VNone
| VStr (s : string)
| VInt (z : Z)
| VList (items : list value)
| VDict (entries : list (string * value)).

(** ** The component interface

    [BaseComponent] is imported from [llama_index.core.schema].  The class
    below lists the two methods that the serializer of the source calls on
    the store: [model_dump], what the store serializes itself to, and
    [class_name]. *)
Class BaseComponent (S : Type) : Type := {
  model_dump : S -> gmap string value;
  class_name : S -> string
}.

(** ** The chat store interface

    [BaseChatStore] is imported from [llama_index.core.storage.chat_store];
    the memory tier only calls it.  The class below lists the methods that
    the source calls on [self.chat_store] to read and write messages. *)
Class BaseChatStore (S : Type) : Type := {
  set_messages : string -> list ChatMessage -> M S unit;
  get_messages : string -> M S (list ChatMessage);
  add_message : string -> ChatMessage -> M S unit;
  async_add_message : string -> ChatMessage -> Coroutine S unit;
  delete_messages : string -> M S unit
}.

(** The sequence a store holds under a key, as a read reports it. *)
Definition stored {S} `{BaseChatStore S} (s : S) (key : string)
  : list ChatMessage :=
  match get_messages key s with
  | Returned h _ => h
  | Raised _ _ => []
  end.

(** Modelled from the spec: the contract a backend must satisfy (sections
    3, 4.1, 6 and 7), for a backend that is available.  A read returns the
    ordered sequence of the key and changes nothing; an append (blocking or
    suspend-capable) adds one message at the end; a replace stores the given
    sequence; a delete leaves the key without messages; and no operation on
    a key changes the sequence of another key. *)
Class ChatStoreContract (S : Type) `{BaseChatStore S} : Prop := {
  get_messages_reads : forall key s,
    get_messages key s = Returned (stored s key) s;
  add_message_appends : forall key message s,
    exists s', add_message key message s = Returned tt s'
      /\ stored s' key = stored s key ++ [message]
      /\ forall key', key' <> key -> stored s' key' = stored s key';
  async_add_message_appends : forall key message s,
    exists s', await (async_add_message key message) s = Returned tt s'
      /\ stored s' key = stored s key ++ [message]
      /\ forall key', key' <> key -> stored s' key' = stored s key';
  set_messages_replaces : forall key messages s,
    exists s', set_messages key messages s = Returned tt s'
      /\ stored s' key = messages
      /\ forall key', key' <> key -> stored s' key' = stored s key';
  delete_messages_clears : forall key s,
    exists s', delete_messages key s = Returned tt s'
      /\ stored s' key = []
      /\ forall key', key' <> key -> stored s' key' = stored s key'
}.

(** ** Objects and references

    A memory holds a reference to its chat store, and several memories may
    hold the same one.  The stores live in a heap; a reference is the
    identity of the object, and [next_ref] is the identity the next object
    that is created receives. *)
Definition ref : Type := nat.

Record heap (S : Type) : Type := Heap {
  store_at : ref -> S;
  next_ref : ref
}.
Arguments Heap {S} store_at next_ref.
Arguments store_at {S} h r.
Arguments next_ref {S} h.

Definition write {S} (r : ref) (s : S) (w : heap S) : heap S :=
  {| store_at := fun r' => if decide (r' = r) then s else store_at w r';
     next_ref := next_ref w |}.


(** A method call on the store behind a reference. *)
Definition on_store {S A} (r : ref) (c : M S A) : M (heap S) A :=
  fun w =>
    match c (store_at w r) with
    | Returned a s' => Returned a (write r s' w)
    | Raised e s' => Raised e (write r s' w)
    end.

Fixpoint on_store_async {S A} (r : ref) (c : Coroutine S A)
  : Coroutine (heap S) A :=
  match c with
  | Finish body => Finish (on_store r body)
  | Suspend segment rest =>
      Suspend (on_store r segment) (on_store_async r rest)
  end.

(** The sequence held under [key] by the store behind [r]. *)
Definition history {S} `{BaseChatStore S} (w : heap S) (r : ref)
  (key : string) : list ChatMessage :=
  stored (store_at w r) key.

(** ** [DEFAULT_CHAT_STORE_KEY] *)
Definition DEFAULT_CHAT_STORE_KEY : string := "chat_history".

(** ** [class BaseMemory]

    The abstract methods ([get_all], [put], [set], [reset]) are supplied by
    the subclass; the two concrete methods are written over the subclass's
    [put], which is what [self.put] resolves to. *)
Module BaseMemory.

Definition class_name : string := "BaseMemory".

Section Methods.
Context {St : Type}.
Variable put : ChatMessage -> M St unit.

(** [async def aput(self, message): self.put(message)]: the body has
    no [await]. *)
Definition aput (message : ChatMessage) : Coroutine St unit :=
  Finish (put message).

(** [for message in messages: self.put(message)] *)
Fixpoint put_messages (messages : list ChatMessage) : M St unit :=
  match messages with
  | [] => ret tt
  | message :: rest => put message ;; put_messages rest
  end.
End Methods.

End BaseMemory.

(** ** [class BaseChatStoreMemory(BaseMemory)] *)
Module BaseChatStoreMemory.

(** The two fields of an instance. *)
Record t : Type := Build {
  chat_store : ref;
  chat_store_key : string
}.

Section Serializer.
Context {S : Type} `{BaseComponent S}.

(** The [field_serializer] of [chat_store]: it receives the store the
    field holds; [res.update] sets the entry ["class_name"] of the
    dump, replacing an entry of that name if the dump has one. *)
Definition serialize_courses_in_order (self : t) (chat_store : S)
  : gmap string value :=
  let res := model_dump chat_store in
  <["class_name" := VStr (class_name chat_store)]> res.

(** What serializing the memory yields for its field [chat_store]. *)
Definition serialized_chat_store (self : t) (w : heap S)
  : gmap string value :=
  serialize_courses_in_order self (store_at w (chat_store self)).
End Serializer.

Section Methods.
Context {S : Type} `{BaseChatStore S}.

Definition get_all (self : t) : M (heap S) (list ChatMessage) :=
  on_store (chat_store self) (get_messages (chat_store_key self)).

Definition put (self : t) (message : ChatMessage) : M (heap S) unit :=
  on_store (chat_store self) (add_message (chat_store_key self) message).

(** Overrides [BaseMemory.aput]: the body awaits the store's own
    coroutine. *)
Definition aput (self : t) (message : ChatMessage)
  : Coroutine (heap S) unit :=
  on_store_async (chat_store self)
    (async_add_message (chat_store_key self) message).

Definition set (self : t) (messages : list ChatMessage)
  : M (heap S) unit :=
  on_store (chat_store self) (set_messages (chat_store_key self) messages).

Definition reset (self : t) : M (heap S) unit :=
  on_store (chat_store self) (delete_messages (chat_store_key self)).

(** Inherited from [BaseMemory]. *)
Definition put_messages (self : t) (messages : list ChatMessage)
  : M (heap S) unit :=
  BaseMemory.put_messages (put self) messages.
End Methods.

(** The classmethod [class_name] of the memory itself. *)
Definition class_name : string := "BaseChatStoreMemory".

End BaseChatStoreMemory.

(** Sample messages. *)
Definition hi : ChatMessage := mkChatMessage USER "hi".
Definition hello : ChatMessage := mkChatMessage ASSISTANT "hello".

(** ** Backends *)

(** Modelled from the spec: [SimpleChatStore], the in-memory backend that
    [BaseChatStoreMemory.chat_store] defaults to, is imported from
    [llama_index.core.storage.chat_store] and is not part of the source.
    It owns a mapping from key to ordered sequence of messages (section 3);
    a read of an absent key returns the empty sequence and a write to an
    absent key creates it (section 7); a new store is empty (section 9). *)
Module SimpleChatStore.

(** Modelled from the spec: the state of the in-memory backend, the
    "mapping from ConversationKey to ordered sequence of Message". *)
Record t : Type := Build {
  store : gmap string (list ChatMessage)
}.

(** Modelled from the spec: [SimpleChatStore()], a "new empty in-memory
    backend". *)
Definition init : t := {| store := ∅ |}.

(** Modelled from the spec: the five operations of the backend capability
    interface (section 6), on the mapping above. *)
Definition get_messages (key : string) : M t (list ChatMessage) :=
  fun s => Returned (default [] (store s !! key)) s.

Definition set_messages (key : string) (messages : list ChatMessage)
  : M t unit :=
  fun s => Returned tt {| store := <[key := messages]> (store s) |}.

Definition add_message (key : string) (message : ChatMessage) : M t unit :=
  fun s =>
    Returned tt
      {| store := <[key := default [] (store s !! key) ++ [message]]>
                    (store s) |}.

Definition async_add_message (key : string) (message : ChatMessage)
  : Coroutine t unit :=
  Finish (add_message key message).

Definition delete_messages (key : string) : M t unit :=
  fun s => Returned tt {| store := delete key (store s) |}.

End SimpleChatStore.

#[export] Instance SimpleChatStore_BaseChatStore
  : BaseChatStore SimpleChatStore.t := {|
  set_messages := SimpleChatStore.set_messages;
  get_messages := SimpleChatStore.get_messages;
  add_message := SimpleChatStore.add_message;
  async_add_message := SimpleChatStore.async_add_message;
  delete_messages := SimpleChatStore.delete_messages
|}.


(** A backend that can fail, used as an input: a store with a number of
    appends left, whose [add_message] raises once none is left (a full
    disk, an exhausted rate limit).  A failed append changes nothing. *)
Module QuotaChatStore.

Record t : Type := Build {
  store : gmap string (list ChatMessage);
  appends_left : nat
}.

Definition get_messages (key : string) : M t (list ChatMessage) :=
  fun s => Returned (default [] (store s !! key)) s.

Definition set_messages (key : string) (messages : list ChatMessage)
  : M t unit :=
  fun s => Returned tt {| store := <[key := messages]> (store s);
                          appends_left := appends_left s |}.

Definition add_message (key : string) (message : ChatMessage) : M t unit :=
  fun s =>
    match appends_left s with
    | O => Raised (Exception "BackendUnavailable") s
    | Datatypes.S n =>
        Returned tt
          {| store := <[key := default [] (store s !! key) ++ [message]]>
                        (store s);
             appends_left := n |}
    end.

Definition async_add_message (key : string) (message : ChatMessage)
  : Coroutine t unit :=
  Finish (add_message key message).

Definition delete_messages (key : string) : M t unit :=
  fun s => Returned tt {| store := delete key (store s);
                          appends_left := appends_left s |}.

End QuotaChatStore.

#[export] Instance QuotaChatStore_BaseChatStore
  : BaseChatStore QuotaChatStore.t := {|
  set_messages := QuotaChatStore.set_messages;
  get_messages := QuotaChatStore.get_messages;
  add_message := QuotaChatStore.add_message;
  async_add_message := QuotaChatStore.async_add_message;
  delete_messages := QuotaChatStore.delete_messages
|}.

(** ** Vocabulary of the properties *)



(** The operations of a short-term memory that change state. *)
Inductive mutation : Type :=
| Put (message : ChatMessage)
| APut (message : ChatMessage)
| PutMessages (messages : list ChatMessage)
| Set_ (messages : list ChatMessage)
| Reset.

Definition perform {S} `{BaseChatStore S} (self : BaseChatStoreMemory.t)
  (op : mutation) : M (heap S) unit :=
  match op with
  | Put message => BaseChatStoreMemory.put self message
  | APut message => await (BaseChatStoreMemory.aput self message)
  | PutMessages messages => BaseChatStoreMemory.put_messages self messages
  | Set_ messages => BaseChatStoreMemory.set self messages
  | Reset => BaseChatStoreMemory.reset self
  end.

(** ** [class LongTermMemory]

    The source declares the class and leaves every method abstract. *)
Module LongTermMemory.

Definition class_name : string := "LongTermMemory".

(** A message with the timestamp it was added with.  The timestamp is a
    Python [float]; only its order is used, and it is taken here as a
    rational number. *)
Record entry : Type := Entry {
  message : ChatMessage;
  timestamp : Qc
}.

(** Modelled from the spec: the state of a long-term memory, one stream
    of timestamped entries for each conversation, in insertion order
    (section 4.3); the source has no implementation of the class. *)
Abbreviation t := (gmap string (list entry)).

(** Modelled from the spec: [add_message] "appends a timestamped entry to
    that conversation's stream" (section 4.3), creating the conversation
    if it is absent (section 7). *)
Definition add_message (message : ChatMessage) (conversation_id : string)
  (timestamp : Qc) : M t unit :=
  fun s =>
    Returned tt
      (<[conversation_id :=
           default [] (s !! conversation_id) ++ [Entry message timestamp]]> s).

(** The entries of a stream, each with its insertion position. *)
Fixpoint numbered_from (n : nat) (es : list entry) : list (nat * entry) :=
  match es with
  | [] => []
  | e :: es' => (n, e) :: numbered_from (Datatypes.S n) es'
  end.

Definition position (p : nat * entry) : nat := fst p.
Definition stamp (p : nat * entry) : Qc := timestamp (snd p).

(** "Descending timestamp, ties broken by reverse insertion order". *)
Definition more_recent (a b : nat * entry) : Prop :=
  (stamp b < stamp a)%Qc \/ (stamp a = stamp b /\ position b < position a).

Definition precedes (a b : nat * entry) : bool :=
  bool_decide (stamp b < stamp a)%Qc
  || (bool_decide (stamp a = stamp b)
      && bool_decide (position b < position a)).

Fixpoint place (x : nat * entry) (l : list (nat * entry))
  : list (nat * entry) :=
  match l with
  | [] => [x]
  | y :: l' => if precedes x y then x :: l else y :: place x l'
  end.

Definition most_recent_first (l : list (nat * entry))
  : list (nat * entry) :=
  foldr place [] l.

Definition qualifies (before_timestamp : Qc) (p : nat * entry) : Prop :=
  (stamp p < before_timestamp)%Qc.

#[export] Instance qualifies_dec before_timestamp p
  : Decision (qualifies before_timestamp p).
Proof. unfold qualifies. apply _. Defined.

(** The entries that [get_recent_memories] selects, with their
    positions. *)
Definition recent_entries (conversation_id : string)
  (before_timestamp : Qc) (max_memories : Z) (s : t)
  : list (nat * entry) :=
  take (Z.to_nat max_memories)
    (most_recent_first
       (filter (qualifies before_timestamp)
          (numbered_from 0 (default [] (s !! conversation_id))))).

(** Modelled from the spec: [get_recent_memories] "returns up to
    maxMemories entries for the conversation with timestamp strictly less
    than beforeTimestamp, ordered from most recent to least recent",
    "empty if the conversation is unknown (not an error)" (section 4.3);
    the source only declares the method. *)
Definition get_recent_memories (conversation_id : string)
  (before_timestamp : Qc) (max_memories : Z)
  : M t (list ChatMessage) :=
  fun s =>
    Returned
      (map (fun p => message (snd p))
         (recent_entries conversation_id before_timestamp max_memories s))
      s.

End LongTermMemory.

(** The places other than the one a memory is bound to: another key of its
    store, or any key of another store. *)
Definition elsewhere (self : BaseChatStoreMemory.t) (r : ref) (key : string)
  : Prop :=
  r <> BaseChatStoreMemory.chat_store self
  \/ key <> BaseChatStoreMemory.chat_store_key self.

Definition unchanged_elsewhere {S} `{BaseChatStore S}
  (self : BaseChatStoreMemory.t) (w w' : heap S) : Prop :=
  forall r key, elsewhere self r key -> history w' r key = history w r key.

(** The sequence under the key a memory is bound to. *)
Definition own_history {S} `{BaseChatStore S}
  (self : BaseChatStoreMemory.t) (w : heap S) : list ChatMessage :=
  history w (BaseChatStoreMemory.chat_store self)
    (BaseChatStoreMemory.chat_store_key self).

(** Sample data: a conversation with entries at the timestamps 1, 3
    and 3 again. *)
Definition diary : LongTermMemory.t :=
  {[ "c" := [LongTermMemory.Entry hi (Qc_of_Z 1);
             LongTermMemory.Entry hello (Qc_of_Z 3);
             LongTermMemory.Entry hi (Qc_of_Z 3)] ]}.

(** Method calls made one after the other by a caller. *)
Fixpoint in_turn {St} (calls : list (M St unit)) : M St unit :=
  match calls with
  | [] => ret tt
  | call :: rest => call ;; in_turn rest
  end.

Definition no_stores : heap SimpleChatStore.t :=
  Heap (fun _ => SimpleChatStore.init) 0.

Definition memory_at (r : ref) (key : string) : BaseChatStoreMemory.t :=
  {| BaseChatStoreMemory.chat_store := r;
     BaseChatStoreMemory.chat_store_key := key |}.

(** A heap whose stores all accept one more append. *)
Definition one_append_left : heap QuotaChatStore.t :=
  Heap (fun _ => QuotaChatStore.Build ∅ 1) 1.

(** ** Vocabulary of the properties of objects and of sequences of calls *)

(** Two heaps that hold the same objects. *)
Definition same_heap {S} (w w' : heap S) : Prop :=
  next_ref w = next_ref w' /\ forall r, store_at w r = store_at w' r.

(** Two runs that no caller can tell apart: the same value returned or
    exception raised, and the same objects left behind. *)
Definition same_outcome {S A} (o o' : outcome (heap S) A) : Prop :=
  observe o = observe o' /\ same_heap (final_state o) (final_state o').

(** What an operation does to a sequence of messages, as a function on
    lists. *)
Definition effect (op : mutation) (h : list ChatMessage) : list ChatMessage :=
  match op with
  | Put message => h ++ [message]
  | APut message => h ++ [message]
  | PutMessages messages => h ++ messages
  | Set_ messages => messages
  | Reset => []
  end.

(** How the end of a method of the store behind [r] shows in the heap. *)
Definition through {S A} (r : ref) (w : heap S) (o : outcome S A)
  : outcome (heap S) A :=
  match o with
  | Returned a s' => Returned a (write r s' w)
  | Raised e s' => Raised e (write r s' w)
  end.

(** A heap with one in-memory store, which holds [hi] under ["k"]. *)
Definition one_store : heap SimpleChatStore.t :=
  Heap (fun _ => SimpleChatStore.Build {[ "k" := [hi] ]}) 1.

(** ** List objects

    A Python list is an object.  [set] hands the caller's list to the
    store, [get_all] hands the store's answer to the caller, and
    [put_messages] iterates over the caller's list; none of them copies.
    The definitions above take a list as the sequence it holds, which is
    exact as long as no list object is reached by two paths.  The
    definitions of this module keep the identity of list objects: a list
    is passed and returned as a reference, and an append changes the
    object for everyone who holds it. *)
Module ByReference.

(** The objects of a run: the dict of each in-memory chat store, from key
    to list object; the list objects; and the identity the next list that
    is created receives. *)
Record objects : Type := Objects {
  dicts : ref -> gmap string ref;
  lists : ref -> list ChatMessage;
  next_list : ref
}.

(** The expression [[]] or a list display: a new list object. *)
Definition new_list (items : list ChatMessage) : M objects ref :=
  fun w =>
    Returned (next_list w)
      {| dicts := dicts w;
         lists := fun l => if decide (l = next_list w) then items
                           else lists w l;
         next_list := Datatypes.S (next_list w) |}.

(** [l.append(message)] *)
Definition list_append (l : ref) (message : ChatMessage) : M objects unit :=
  fun w =>
    Returned tt
      {| dicts := dicts w;
         lists := fun l' => if decide (l' = l) then lists w l ++ [message]
                            else lists w l';
         next_list := next_list w |}.

(** [list(l)]: the sequence a list object holds now. *)
Definition contents (l : ref) : M objects (list ChatMessage) :=
  fun w => Returned (lists w l) w.

(** [d[key] = l] on the dict of a store. *)
Definition dict_set (store : ref) (key : string) (l : ref) : M objects unit :=
  fun w =>
    Returned tt
      {| dicts := fun r => if decide (r = store) then <[key := l]> (dicts w r)
                           else dicts w r;
         lists := lists w;
         next_list := next_list w |}.

(** [d.get(key, default)] *)
Definition dict_get (store : ref) (key : string) (default_ : ref)
  : M objects ref :=
  fun w => Returned (default default_ (dicts w store !! key)) w.

(** [d.setdefault(key, default)] *)
Definition dict_setdefault (store : ref) (key : string) (default_ : ref)
  : M objects ref :=
  fun w =>
    match dicts w store !! key with
    | Some held => Returned held w
    | None => (dict_set store key default_ ;; ret default_) w
    end.

(** [d.pop(key, None)] with the result dropped. *)
Definition dict_remove (store : ref) (key : string) : M objects unit :=
  fun w =>
    Returned tt
      {| dicts := fun r => if decide (r = store) then delete key (dicts w r)
                           else dicts w r;
         lists := lists w;
         next_list := next_list w |}.

(** Modelled from the spec: the in-memory backend, which is not part of
    the source, as the mapping from key to ordered sequence that it owns
    (section 3) held in a Python dict from key to list object.  The spec
    does not say that a backend copies the lists it is given or hands out;
    this backend stores the list object it is given and returns the list
    object it holds.  A read of an absent key returns a new empty list and
    an append to an absent key creates its list (section 7). *)
Definition set_messages (store : ref) (key : string) (messages : ref)
  : M objects unit :=
  dict_set store key messages.

(** Modelled from the spec: the read of the in-memory backend, see
    [set_messages]; the default [[]] is created before the lookup. *)
Definition get_messages (store : ref) (key : string) : M objects ref :=
  empty <- new_list [] ;;
  dict_get store key empty.

(** Modelled from the spec: the append of the in-memory backend, see
    [set_messages]; it appends to the list object held under the key. *)
Definition add_message (store : ref) (key : string) (message : ChatMessage)
  : M objects unit :=
  empty <- new_list [] ;;
  held <- dict_setdefault store key empty ;;
  list_append held message.

(** Modelled from the spec: the suspend-capable append of the in-memory
    backend, which has no input or output to wait for. *)
Definition async_add_message (store : ref) (key : string)
  (message : ChatMessage) : Coroutine objects unit :=
  Finish (add_message store key message).

(** Modelled from the spec: the delete of the in-memory backend, see
    [set_messages]. *)
Definition delete_messages (store : ref) (key : string) : M objects unit :=
  dict_remove store key.

(** The methods of [BaseChatStoreMemory], as in the source, with lists
    passed and returned as objects. *)
Definition get_all (self : BaseChatStoreMemory.t) : M objects ref :=
  get_messages (BaseChatStoreMemory.chat_store self)
    (BaseChatStoreMemory.chat_store_key self).

Definition put (self : BaseChatStoreMemory.t) (message : ChatMessage)
  : M objects unit :=
  add_message (BaseChatStoreMemory.chat_store self)
    (BaseChatStoreMemory.chat_store_key self) message.

Definition aput (self : BaseChatStoreMemory.t) (message : ChatMessage)
  : Coroutine objects unit :=
  async_add_message (BaseChatStoreMemory.chat_store self)
    (BaseChatStoreMemory.chat_store_key self) message.

Definition set (self : BaseChatStoreMemory.t) (messages : ref)
  : M objects unit :=
  set_messages (BaseChatStoreMemory.chat_store self)
    (BaseChatStoreMemory.chat_store_key self) messages.

Definition reset (self : BaseChatStoreMemory.t) : M objects unit :=
  delete_messages (BaseChatStoreMemory.chat_store self)
    (BaseChatStoreMemory.chat_store_key self).

(** [for message in messages: self.put(message)] over a list object: the
    iterator keeps a position [i] and, at each turn, yields the element at
    that position of the list as it is then, or stops when there is none.
    A loop that has not ended when [fuel] turns are used gives [None]. *)
Fixpoint for_each_put (fuel : nat) (put : ChatMessage -> M objects unit)
  (messages : ref) (i : nat) (w : objects)
  : option (outcome objects unit) :=
  match fuel with
  | O => None
  | Datatypes.S fuel' =>
      match lists w messages !! i with
      | None => Some (Returned tt w)
      | Some message =>
          match put message w with
          | Returned _ w' => for_each_put fuel' put messages (Datatypes.S i) w'
          | Raised e w' => Some (Raised e w')
          end
      end
  end.

(** [put_messages], inherited from [BaseMemory]. *)
Definition put_messages (fuel : nat) (self : BaseChatStoreMemory.t)
  (messages : ref) (w : objects) : option (outcome objects unit) :=
  for_each_put fuel (put self) messages 0 w.

(** The operations that change state, with their list arguments as
    objects. *)
Inductive call : Type :=
| PutCall (message : ChatMessage)
| APutCall (message : ChatMessage)
| PutMessagesCall (messages : ref)
| SetCall (messages : ref)
| ResetCall.

Definition perform (fuel : nat) (self : BaseChatStoreMemory.t) (c : call)
  (w : objects) : option (outcome objects unit) :=
  match c with
  | PutCall message => Some (put self message w)
  | APutCall message => Some (await (aput self message) w)
  | PutMessagesCall messages => put_messages fuel self messages w
  | SetCall messages => Some (set self messages w)
  | ResetCall => Some (reset self w)
  end.

(** The sequence stored under a key of a store. *)
Definition sequence_at (w : objects) (store : ref) (key : string)
  : list ChatMessage :=
  match dicts w store !! key with
  | Some l => lists w l
  | None => []
  end.

(** The list object held under the key a memory is bound to. *)
Definition own_list (self : BaseChatStoreMemory.t) (w : objects)
  : option ref :=
  dicts w (BaseChatStoreMemory.chat_store self)
    !! BaseChatStoreMemory.chat_store_key self.

(** Every list that a store holds has been created. *)
Definition well_formed (w : objects) : Prop :=
  forall store key l, dicts w store !! key = Some l -> l < next_list w.

(** No other key, of this store or of another, holds the list object that
    the bound key holds. *)
Definition unshared (self : BaseChatStoreMemory.t) (w : objects) : Prop :=
  forall store key l,
    elsewhere self store key ->
    dicts w store !! key = Some l -> own_list self w <> Some l.

(** A list argument that exists and is not the list of the bound key. *)
Definition apart (self : BaseChatStoreMemory.t) (w : objects)
  (messages : ref) : Prop :=
  messages < next_list w /\ own_list self w <> Some messages.



(** No object yet. *)
Definition nothing : objects := Objects (fun _ => ∅) (fun _ => []) 0.


(** Two list objects, [[hi]] under ["a"] of the store 0 and [[hello; hi]]
    held by the caller only. *)
Definition one_key_and_a_list : objects :=
  final_state
    ((l <- new_list [hi] ;;
      set {| BaseChatStoreMemory.chat_store := 0;
             BaseChatStoreMemory.chat_store_key := "a" |} l ;;
      new_list [hello; hi]) nothing).

End ByReference.

(** * Properties *)

(** ** The method monad *)

Lemma bind_returned {St A B} (c : M St A) (k : A -> M St B) s a s' :
  c s = Returned a s' -> (x <- c ;; k x) s = k a s'.
Proof. intros Hc. unfold bind. now rewrite Hc. Qed.

Lemma bind_raised {St A B} (c : M St A) (k : A -> M St B) s e s' :
  c s = Raised e s' -> (x <- c ;; k x) s = Raised e s'.
Proof. intros Hc. unfold bind. now rewrite Hc. Qed.

(** ** [BaseMemory]: the batch and the default coroutine *)

Section BaseMemoryFacts.
Context {St : Type}.
Variable put : ChatMessage -> M St unit.

Lemma put_messages_app before after s s1 :
  BaseMemory.put_messages put before s = Returned tt s1 ->
  BaseMemory.put_messages put (before ++ after) s
  = BaseMemory.put_messages put after s1.
Proof.
  revert s. induction before as [|m before IH]; intros s Hb; simpl in *.
  - unfold ret in Hb. now inversion Hb.
  - unfold bind in *. destruct (put m s) as [[] s0|e s0]; [|discriminate].
    now apply IH.
Qed.




(** C3, as the code has it: when a single append of the batch raises,
    the batch raises that exception in the state that append left; the
    messages before it have been appended and stay so, and the messages
    after it are not attempted. *)
Theorem put_messages_stops_at_failure
    (before after : list ChatMessage) (message : ChatMessage)
    (s s1 s2 : St) (e : exception) :
  BaseMemory.put_messages put before s = Returned tt s1 ->
  put message s1 = Raised e s2 ->
  BaseMemory.put_messages put (before ++ message :: after) s = Raised e s2.
Proof.
  intros Hbefore Hfail.
  rewrite (put_messages_app _ _ _ _ Hbefore). simpl.
  now apply bind_raised.
Qed.

(** C9: the default [aput] never yields to the event loop, and awaiting
    it is the blocking [put]: same result, same final state, and the
    same [get_all] afterwards. *)
Theorem default_aput_is_put
    (get_all : M St (list ChatMessage)) (message : ChatMessage) (s : St) :
  suspension_points (BaseMemory.aput put message) = 0
  /\ await (BaseMemory.aput put message) s = put message s
  /\ (await (BaseMemory.aput put message) ;; get_all) s
     = (put message ;; get_all) s.
Proof. repeat split. Qed.

End BaseMemoryFacts.

(** ** [BaseChatStoreMemory] over a backend that keeps the contract *)

Section ShortTermMemory.
Context {S : Type} {backend : BaseChatStore S} {contract : ChatStoreContract S}.
Import BaseChatStoreMemory.

Lemma history_write_same (w : heap S) r s key :
  history (write r s w) r key = stored s key.
Proof. unfold history, write. simpl. now rewrite decide_True. Qed.

Lemma history_write_other (w : heap S) r r' s key :
  r' <> r -> history (write r s w) r' key = history w r' key.
Proof. intros Hne. unfold history, write. simpl. now rewrite decide_False. Qed.

(** A heap that differs from [w] only in the bound store, which now is
    [s'], and [s'] differs from the old store only under the bound key. *)
Lemma bound_store_update (self : t) (w w' : heap S) s' :
  store_at w' (chat_store self) = s' ->
  (forall r, r <> chat_store self -> store_at w' r = store_at w r) ->
  (forall key', key' <> chat_store_key self ->
     stored s' key' = stored (store_at w (chat_store self)) key') ->
  own_history self w' = stored s' (chat_store_key self)
  /\ unchanged_elsewhere self w w'.
Proof.
  intros Hs' Hother Hframe. split.
  - unfold own_history, history. now rewrite Hs'.
  - intros r key Hel. unfold history.
    destruct (decide (r = chat_store self)) as [->|Hr].
    + rewrite Hs'. destruct Hel as [Hr|Hkey]; [done|now apply Hframe].
    + now rewrite Hother.
Qed.

Lemma on_store_update (self : t) (c : M S unit) (w : heap S) s' :
  c (store_at w (chat_store self)) = Returned tt s' ->
  (forall key', key' <> chat_store_key self ->
     stored s' key' = stored (store_at w (chat_store self)) key') ->
  exists w', on_store (chat_store self) c w = Returned tt w'
    /\ own_history self w' = stored s' (chat_store_key self)
    /\ unchanged_elsewhere self w w'.
Proof.
  intros Hc Hframe. exists (write (chat_store self) s' w).
  unfold on_store. rewrite Hc. split; [reflexivity|].
  apply bound_store_update; [| |exact Hframe].
  - simpl. now rewrite decide_True.
  - intros r Hr. simpl. now rewrite decide_False.
Qed.

(** Awaiting a store's coroutine through a reference runs it on the store
    behind the reference and touches no other store. *)
Lemma on_store_async_returned {A} r (c : Coroutine S A) (w : heap S) a s' :
  await c (store_at w r) = Returned a s' ->
  exists w', await (on_store_async r c) w = Returned a w'
    /\ store_at w' r = s'
    /\ forall r', r' <> r -> store_at w' r' = store_at w r'.
Proof.
  revert w. induction c as [body|segment rest IH]; intros w Hrun; simpl in *.
  - exists (write r s' w). unfold on_store. rewrite Hrun.
    split; [reflexivity|]. simpl. split; [now rewrite decide_True|].
    intros r' Hr'. now rewrite decide_False.
  - unfold bind in Hrun.
    destruct (segment (store_at w r)) as [[] s1|e s1] eqn:Hseg; [|discriminate].
    destruct (IH (write r s1 w)) as (w' & Hrest & Hat & Hother).
    { simpl. now rewrite decide_True. }
    exists w'. unfold bind, on_store at 1. rewrite Hseg.
    split; [exact Hrest|]. split; [exact Hat|].
    intros r' Hr'. rewrite (Hother r' Hr'). simpl. now rewrite decide_False.
Qed.

Lemma get_all_spec (self : t) (w : heap S) :
  exists w', get_all self w = Returned (own_history self w) w'
    /\ forall r key, history w' r key = history w r key.
Proof.
  exists (write (chat_store self) (store_at w (chat_store self)) w).
  unfold get_all, on_store. rewrite get_messages_reads. split; [reflexivity|].
  intros r key. destruct (decide (r = chat_store self)) as [->|Hr].
  - apply history_write_same.
  - now apply history_write_other.
Qed.

Lemma observe_get_all (self : t) (w : heap S) :
  observe (get_all self w) = inl (own_history self w).
Proof. destruct (get_all_spec self w) as (w' & Hget & _). now rewrite Hget. Qed.

Lemma put_spec (self : t) (message : ChatMessage) (w : heap S) :
  exists w', put self message w = Returned tt w'
    /\ own_history self w' = own_history self w ++ [message]
    /\ unchanged_elsewhere self w w'.
Proof.
  destruct (add_message_appends (chat_store_key self) message
              (store_at w (chat_store self))) as (s' & Hc & Hk & Hframe).
  destruct (on_store_update self _ w s' Hc Hframe) as (w' & Hrun & Hown & Hel).
  exists w'. repeat split; [exact Hrun| |exact Hel].
  now rewrite Hown, Hk.
Qed.

Lemma set_spec (self : t) (messages : list ChatMessage) (w : heap S) :
  exists w', set self messages w = Returned tt w'
    /\ own_history self w' = messages
    /\ unchanged_elsewhere self w w'.
Proof.
  destruct (set_messages_replaces (chat_store_key self) messages
              (store_at w (chat_store self))) as (s' & Hc & Hk & Hframe).
  destruct (on_store_update self _ w s' Hc Hframe) as (w' & Hrun & Hown & Hel).
  exists w'. repeat split; [exact Hrun| |exact Hel].
  now rewrite Hown, Hk.
Qed.

Lemma reset_spec (self : t) (w : heap S) :
  exists w', reset self w = Returned tt w'
    /\ own_history self w' = []
    /\ unchanged_elsewhere self w w'.
Proof.
  destruct (delete_messages_clears (chat_store_key self)
              (store_at w (chat_store self))) as (s' & Hc & Hk & Hframe).
  destruct (on_store_update self _ w s' Hc Hframe) as (w' & Hrun & Hown & Hel).
  exists w'. repeat split; [exact Hrun| |exact Hel].
  now rewrite Hown, Hk.
Qed.

Lemma aput_spec (self : t) (message : ChatMessage) (w : heap S) :
  exists w', await (aput self message) w = Returned tt w'
    /\ own_history self w' = own_history self w ++ [message]
    /\ unchanged_elsewhere self w w'.
Proof.
  destruct (async_add_message_appends (chat_store_key self) message
              (store_at w (chat_store self))) as (s' & Hc & Hk & Hframe).
  destruct (on_store_async_returned _ _ _ _ _ Hc) as (w' & Hrun & Hat & Hother).
  destruct (bound_store_update self w w' s' Hat Hother Hframe) as [Hown Hel].
  exists w'. repeat split; [exact Hrun| |exact Hel].
  now rewrite Hown, Hk.
Qed.

(** The override of [aput] in [BaseChatStoreMemory], awaited without
    another task in between, is observed by [get_all] as [put] is. *)
Lemma overriding_aput_observed_as_put
    (self : t) (message : ChatMessage) (w : heap S) :
  observe ((await (aput self message) ;; get_all self) w)
  = observe ((put self message ;; get_all self) w).
Proof.
  destruct (aput_spec self message w) as (w1 & Haput & Hown1 & _).
  destruct (put_spec self message w) as (w2 & Hput & Hown2 & _).
  rewrite (bind_returned _ _ _ _ _ Haput), (bind_returned _ _ _ _ _ Hput).
  destruct (get_all_spec self w1) as (w1' & Hget1 & _).
  destruct (get_all_spec self w2) as (w2' & Hget2 & _).
  rewrite Hget1, Hget2. simpl. now rewrite Hown1, Hown2.
Qed.

Lemma unchanged_elsewhere_trans (self : t) (w1 w2 w3 : heap S) :
  unchanged_elsewhere self w1 w2 -> unchanged_elsewhere self w2 w3 ->
  unchanged_elsewhere self w1 w3.
Proof. intros H12 H23 r key Hel. now rewrite H23, H12. Qed.

Lemma put_messages_spec (self : t) (messages : list ChatMessage) (w : heap S) :
  exists w', put_messages self messages w = Returned tt w'
    /\ own_history self w' = own_history self w ++ messages
    /\ unchanged_elsewhere self w w'.
Proof.
  unfold put_messages. revert w.
  induction messages as [|m messages IH]; intros w; simpl.
  - exists w. unfold ret. rewrite app_nil_r. repeat split.
  - destruct (put_spec self m w) as (w1 & Hput & Hown1 & Hel1).
    destruct (IH w1) as (w' & Hrest & Hown & Hel).
    exists w'. rewrite (bind_returned _ _ _ _ _ Hput).
    split; [exact Hrest|]. split.
    + now rewrite Hown, Hown1, <- app_assoc.
    + eapply unchanged_elsewhere_trans; eassumption.
Qed.

Lemma in_turn_puts (self : t) (messages : list ChatMessage) (w : heap S) :
  in_turn (map (put self) messages) w = put_messages self messages w.
Proof.
  unfold put_messages. revert w.
  induction messages as [|m messages IH]; intros w; simpl; [reflexivity|].
  unfold bind. destruct (put self m w); [apply IH|reflexivity].
Qed.

Lemma get_all_after_in_turn_puts
    (self : t) (messages : list ChatMessage) (w : heap S) :
  observe ((in_turn (map (put self) messages) ;; get_all self) w)
  = inl (own_history self w ++ messages).
Proof.
  destruct (put_messages_spec self messages w) as (w1 & Hputs & Hown & _).
  rewrite <- in_turn_puts in Hputs.
  rewrite (bind_returned _ _ _ _ _ Hputs).
  destruct (get_all_spec self w1) as (w2 & Hget & _).
  rewrite Hget. simpl. now rewrite Hown.
Qed.

(** C1: after any sequence of [put] calls, [get_all] returns what it
    returned before the calls followed by the messages put, in call order;
    from an empty history it returns exactly the messages put. *)
Theorem get_all_after_puts
    (self : t) (messages h0 : list ChatMessage) (w : heap S) :
  observe (get_all self w) = inl h0 ->
  observe ((in_turn (map (put self) messages) ;; get_all self) w)
  = inl (h0 ++ messages).
Proof.
  intros Hbefore. rewrite observe_get_all in Hbefore.
  injection Hbefore as <-. apply get_all_after_in_turn_puts.
Qed.

(** C4: [reset] followed by [get_all] returns the empty sequence, and
    [reset] leaves every other key, of this store or of another, with the
    sequence it had. *)
Theorem reset_then_get_all (self : t) (w : heap S) :
  observe ((reset self ;; get_all self) w) = inl []
  /\ unchanged_elsewhere self w (final_state (reset self w)).
Proof.
  destruct (reset_spec self w) as (w1 & Hreset & Hown & Hel).
  rewrite (bind_returned _ _ _ _ _ Hreset), Hreset.
  destruct (get_all_spec self w1) as (w2 & Hget & _).
  rewrite Hget. simpl. now rewrite Hown.
Qed.

(** C5: [set] is idempotent: [get_all] after two calls of [set] with the
    same messages returns what it returns after one call, which is these
    messages. *)
Theorem set_idempotent (self : t) (messages : list ChatMessage) (w : heap S) :
  observe ((set self messages ;; set self messages ;; get_all self) w)
  = observe ((set self messages ;; get_all self) w)
  /\ observe ((set self messages ;; get_all self) w) = inl messages.
Proof.
  destruct (set_spec self messages w) as (w1 & Hset1 & Hown1 & _).
  destruct (set_spec self messages w1) as (w2 & Hset2 & Hown2 & _).
  rewrite !(bind_returned _ _ _ _ _ Hset1), (bind_returned _ _ _ _ _ Hset2).
  destruct (get_all_spec self w1) as (w1' & Hget1 & _).
  destruct (get_all_spec self w2) as (w2' & Hget2 & _).
  rewrite Hget1, Hget2. simpl. now rewrite Hown1, Hown2.
Qed.

End ShortTermMemory.

(** ** The in-memory backend keeps the contract *)

Lemma SimpleChatStore_stored (s : SimpleChatStore.t) (key : string) :
  stored s key = default [] (SimpleChatStore.store s !! key).
Proof. reflexivity. Qed.

#[export] Instance SimpleChatStore_contract
  : ChatStoreContract SimpleChatStore.t.
Proof.
  split.
  - reflexivity.
  - intros key message s. eexists. split; [reflexivity|].
    rewrite !SimpleChatStore_stored. simpl. split.
    + now rewrite lookup_insert_eq.
    + intros key' Hne. rewrite SimpleChatStore_stored. simpl.
      now rewrite lookup_insert_ne.
  - intros key message s. eexists. split; [reflexivity|].
    rewrite !SimpleChatStore_stored. simpl. split.
    + now rewrite lookup_insert_eq.
    + intros key' Hne. rewrite SimpleChatStore_stored. simpl.
      now rewrite lookup_insert_ne.
  - intros key messages s. eexists. split; [reflexivity|].
    rewrite !SimpleChatStore_stored. simpl. split.
    + now rewrite lookup_insert_eq.
    + intros key' Hne. rewrite SimpleChatStore_stored. simpl.
      now rewrite lookup_insert_ne.
  - intros key s. eexists. split; [reflexivity|].
    rewrite !SimpleChatStore_stored. simpl. split.
    + now rewrite lookup_delete_eq.
    + intros key' Hne. rewrite SimpleChatStore_stored. simpl.
      now rewrite lookup_delete_ne.
Qed.

(** The scenario of the spec: [put(user "hi")], [put(assistant "hello")],
    then [get_all]. *)
Lemma get_all_after_puts_witness :
  observe (BaseChatStoreMemory.get_all
             (memory_at 0 DEFAULT_CHAT_STORE_KEY) no_stores) = inl []
  /\ observe
       ((in_turn (map (BaseChatStoreMemory.put
                         (memory_at 0 DEFAULT_CHAT_STORE_KEY)) [hi; hello]) ;;
         BaseChatStoreMemory.get_all (memory_at 0 DEFAULT_CHAT_STORE_KEY))
          no_stores)
     = inl ([] ++ [hi; hello]).
Proof.
  split; [reflexivity|].
  apply (get_all_after_puts (contract := SimpleChatStore_contract)).
  reflexivity.
Defined.

Lemma reset_then_get_all_witness :
  observe
    ((BaseChatStoreMemory.reset (memory_at 0 DEFAULT_CHAT_STORE_KEY) ;;
      BaseChatStoreMemory.get_all (memory_at 0 DEFAULT_CHAT_STORE_KEY))
       no_stores)
  = inl []
  /\ unchanged_elsewhere (memory_at 0 DEFAULT_CHAT_STORE_KEY) no_stores
       (final_state
          (BaseChatStoreMemory.reset
             (memory_at 0 DEFAULT_CHAT_STORE_KEY) no_stores)).
Proof.
  exact (reset_then_get_all (contract := SimpleChatStore_contract)
           (memory_at 0 DEFAULT_CHAT_STORE_KEY) no_stores).
Defined.

Lemma set_idempotent_witness :
  observe
    ((BaseChatStoreMemory.set (memory_at 0 "k") [hi; hello] ;;
      BaseChatStoreMemory.set (memory_at 0 "k") [hi; hello] ;;
      BaseChatStoreMemory.get_all (memory_at 0 "k")) no_stores)
  = observe
      ((BaseChatStoreMemory.set (memory_at 0 "k") [hi; hello] ;;
        BaseChatStoreMemory.get_all (memory_at 0 "k")) no_stores)
  /\ observe
       ((BaseChatStoreMemory.set (memory_at 0 "k") [hi; hello] ;;
         BaseChatStoreMemory.get_all (memory_at 0 "k")) no_stores)
     = inl [hi; hello].
Proof.
  exact (set_idempotent (contract := SimpleChatStore_contract)
           (memory_at 0 "k") [hi; hello] no_stores).
Defined.

(** ** A batch that fails half-way *)

(** C3 fails on the code: with a backend that accepts one more append, the
    batch [hi; hello] raises at [hello], and [hi] has been appended:
    [get_all] returned the empty sequence before the batch and returns
    [hi] after it. *)
Lemma put_messages_keeps_applied_prefix :
  observe (BaseChatStoreMemory.put_messages
             (memory_at 0 "k") [hi; hello] one_append_left)
  = inr (Exception "BackendUnavailable")
  /\ observe (BaseChatStoreMemory.get_all (memory_at 0 "k") one_append_left)
     = inl []
  /\ observe
       (BaseChatStoreMemory.get_all (memory_at 0 "k")
          (final_state
             (BaseChatStoreMemory.put_messages
                (memory_at 0 "k") [hi; hello] one_append_left)))
     = inl [hi].
Proof. vm_compute. repeat split. Qed.

Lemma put_messages_stops_at_failure_witness :
  BaseMemory.put_messages (BaseChatStoreMemory.put (memory_at 0 "k"))
    ([hi] ++ hello :: [hi]) one_append_left
  = Raised (Exception "BackendUnavailable")
      (final_state
         (BaseChatStoreMemory.put_messages
            (memory_at 0 "k") [hi; hello] one_append_left)).
Proof.
  apply (put_messages_stops_at_failure
           (BaseChatStoreMemory.put (memory_at 0 "k")) [hi] [hi] hello
           one_append_left
           (final_state
              (BaseChatStoreMemory.put (memory_at 0 "k") hi one_append_left))).
  - reflexivity.
  - reflexivity.
Defined.

(** ** Serialization of the [chat_store] field *)

Section Serialization.
Context {S : Type} {component : BaseComponent S}.

(** C8: what serializing a memory yields for [chat_store] is the dump of
    the store it holds together with the entry ["class_name"], whose value
    is the class name of that store: every other field is as in the dump,
    and there is no further field. *)
Theorem serialized_chat_store_is_tagged_dump
    (self : BaseChatStoreMemory.t) (w : heap S) :
  let chat_store_object := store_at w (BaseChatStoreMemory.chat_store self) in
  let res := BaseChatStoreMemory.serialized_chat_store self w in
  res = BaseChatStoreMemory.serialize_courses_in_order self chat_store_object
  /\ res !! "class_name" = Some (VStr (class_name chat_store_object))
  /\ (forall field, field <> "class_name" ->
        res !! field = model_dump chat_store_object !! field)
  /\ dom res = {["class_name"]} ∪ dom (model_dump chat_store_object).
Proof.
  intros cs res. subst res. unfold BaseChatStoreMemory.serialized_chat_store.
  fold cs. unfold BaseChatStoreMemory.serialize_courses_in_order.
  split; [reflexivity|]. split; [apply lookup_insert_eq|]. split.
  - intros field Hne. now apply lookup_insert_ne.
  - apply dom_insert_L.
Qed.

End Serialization.

(** ** Construction with the defaults *)

Section DefaultConstruction.
Import BaseChatStoreMemory.




End DefaultConstruction.

(** ** [LongTermMemory]: recall of the most recent entries *)

Example recent_before_2 :
  observe (LongTermMemory.get_recent_memories "c" (Qc_of_Z 2) 10 diary)
  = inl [hi].
Proof. vm_compute. reflexivity. Qed.

Example recent_before_4 :
  observe (LongTermMemory.get_recent_memories "c" (Qc_of_Z 4) 2 diary)
  = inl [hi; hello].
Proof. vm_compute. reflexivity. Qed.

Section RecentMemories.
Import LongTermMemory.

Lemma precedes_more_recent a b : precedes a b = true <-> more_recent a b.
Proof.
  unfold precedes, more_recent.
  rewrite orb_true_iff, andb_true_iff, !bool_decide_eq_true. reflexivity.
Qed.

Lemma more_recent_trans a b c :
  more_recent a b -> more_recent b c -> more_recent a c.
Proof.
  intros [Hab|[Hab Hpab]] [Hbc|[Hbc Hpbc]].
  - left. eapply Qclt_trans; eassumption.
  - left. now rewrite <- Hbc.
  - left. now rewrite Hab.
  - right. split; [congruence|lia].
Qed.

(** Two entries at different positions are ordered one way or the other. *)
Lemma more_recent_total a b :
  position a <> position b -> ~ more_recent a b -> more_recent b a.
Proof.
  intros Hpos Hnot. unfold more_recent in *.
  destruct (Qclt_le_dec (stamp a) (stamp b)) as [Hlt|Hle]; [now left|].
  destruct (Qcle_lt_or_eq _ _ Hle) as [Hlt|Heq].
  - exfalso. apply Hnot. now left.
  - right. split; [now symmetry|].
    destruct (decide (position a < position b)) as [|Hge]; [done|].
    exfalso. apply Hnot. right. split; [now symmetry|lia].
Qed.

Lemma place_Permutation x l : place x l ≡ₚ x :: l.
Proof.
  induction l as [|y l IH]; simpl; [reflexivity|].
  destruct (precedes x y); [reflexivity|].
  rewrite IH. apply Permutation_swap.
Qed.

Lemma most_recent_first_Permutation l : most_recent_first l ≡ₚ l.
Proof.
  induction l as [|x l IH]; simpl; [reflexivity|].
  now rewrite place_Permutation, IH.
Qed.

Lemma place_sorted x l :
  Forall (fun y => position x <> position y) l ->
  StronglySorted more_recent l ->
  StronglySorted more_recent (place x l).
Proof.
  induction l as [|y l IH]; intros Hfresh Hsorted; simpl.
  - repeat constructor.
  - apply Forall_cons in Hfresh as [Hxy Hfresh].
    apply StronglySorted_cons in Hsorted as [Hy Hsorted].
    destruct (precedes x y) eqn:Hp.
    + apply precedes_more_recent in Hp.
      apply StronglySorted_cons. split.
      * constructor; [exact Hp|].
        eapply Forall_impl; [exact Hy|].
        intros z Hyz. eapply more_recent_trans; eassumption.
      * now apply StronglySorted_cons.
    + assert (Hyx : more_recent y x).
      { apply more_recent_total; [congruence|].
        intros Hxy'. apply precedes_more_recent in Hxy'. congruence. }
      apply StronglySorted_cons. split; [|now apply IH].
      rewrite place_Permutation. now constructor.
Qed.

Lemma most_recent_first_sorted l :
  NoDup (position <$> l) -> StronglySorted more_recent (most_recent_first l).
Proof.
  induction l as [|x l IH]; simpl; intros Hnodup; [constructor|].
  apply NoDup_cons in Hnodup as [Hx Hnodup].
  apply place_sorted; [|now apply IH].
  rewrite most_recent_first_Permutation.
  apply Forall_forall. intros y Hy Heq. apply Hx.
  rewrite Heq. apply list_elem_of_fmap. now exists y.
Qed.

Lemma numbered_from_lookup n es p :
  p ∈ numbered_from n es ->
  n <= position p /\ es !! (position p - n) = Some (snd p).
Proof.
  revert n. induction es as [|e es IH]; intros n Hin; simpl in *.
  - now apply elem_of_nil in Hin.
  - apply elem_of_cons in Hin as [->|Hin].
    + simpl. split; [lia|]. now rewrite Nat.sub_diag.
    + destruct (IH _ Hin) as [Hle Hlook]. split; [lia|].
      replace (position p - n) with (Datatypes.S (position p - Datatypes.S n))
        by lia.
      exact Hlook.
Qed.

Lemma numbered_from_NoDup n es : NoDup (position <$> numbered_from n es).
Proof.
  revert n. induction es as [|e es IH]; intros n; simpl; [constructor|].
  apply NoDup_cons. split; [|apply IH].
  intros Hin. apply list_elem_of_fmap in Hin as (p & Hp & Hin).
  apply numbered_from_lookup in Hin as [Hle _]. simpl in Hp. lia.
Qed.

Lemma qualifying_count (B : Qc) n es :
  length (filter (qualifies B) (numbered_from n es))
  = length (filter (fun e => (timestamp e < B)%Qc) es).
Proof.
  revert n. induction es as [|e es IH]; intros n; simpl; [reflexivity|].
  rewrite !filter_cons. unfold qualifies at 1, stamp. simpl.
  destruct (decide (timestamp e < B)%Qc); simpl; now rewrite IH.
Qed.

(** C7: [get_recent_memories] returns and raises nothing; it returns at
    most [max_memories] messages; each is an entry of the conversation with
    a timestamp strictly below [before_timestamp]; they come by descending
    timestamp, and among equal timestamps the entry inserted later comes
    first; as many are returned as qualify, up to the limit; and for an
    unknown conversation the result is empty. *)
Theorem get_recent_memories_spec
    (s : t) (conversation_id : string) (before_timestamp : Qc)
    (max_memories : Z) :
  (0 <= max_memories)%Z ->
  exists picked : list (nat * entry),
    get_recent_memories conversation_id before_timestamp max_memories s
    = Returned (map (fun p => message (snd p)) picked) s
    /\ (Z.of_nat (length (map (fun p => message (snd p)) picked))
        <= max_memories)%Z
    /\ Forall (fun p =>
                 default [] (s !! conversation_id) !! position p
                 = Some (snd p)
                 /\ (stamp p < before_timestamp)%Qc) picked
    /\ StronglySorted more_recent picked
    /\ length picked
       = Nat.min (Z.to_nat max_memories)
           (length (filter (fun e => (timestamp e < before_timestamp)%Qc)
                      (default [] (s !! conversation_id))))
    /\ (s !! conversation_id = None -> picked = []).
Proof.
  intros Hlimit.
  exists (recent_entries conversation_id before_timestamp max_memories s).
  unfold get_recent_memories, recent_entries.
  set (es := default [] (s !! conversation_id)).
  set (qualifying := filter (qualifies before_timestamp) (numbered_from 0 es)).
  split; [reflexivity|]. split; [|split; [|split; [|split]]].
  - rewrite length_map, length_take. lia.
  - apply Forall_take. rewrite most_recent_first_Permutation.
    apply Forall_forall. intros p Hp.
    apply list_elem_of_filter in Hp as [Hq Hin].
    apply numbered_from_lookup in Hin as [_ Hlook].
    rewrite Nat.sub_0_r in Hlook. now split.
  - assert (Hsorted : StronglySorted more_recent (most_recent_first qualifying)).
    { apply most_recent_first_sorted.
      eapply sublist_NoDup; [apply (numbered_from_NoDup 0 es)|].
      unfold qualifying. apply fmap_sublist, sublist_filter. }
    rewrite <- (take_drop (Z.to_nat max_memories)) in Hsorted.
    now apply StronglySorted_app_1_l in Hsorted.
  - rewrite length_take, most_recent_first_Permutation.
    unfold qualifying. now rewrite qualifying_count.
  - intros Hunknown. unfold qualifying, es. rewrite Hunknown. simpl.
    apply take_nil.
Qed.

(** The scenario of the spec: two messages added at [t1] and [t3]; a
    recall before [t2], between the two, returns the first only, and a
    recall before a later time returns both, the more recent first. *)
Lemma recall_before_and_after
    (s : t) (conversation_id : string) (m1 m3 : ChatMessage)
    (t1 t2 t3 later : Qc) :
  s !! conversation_id = None ->
  (t1 < t2)%Qc -> (t2 < t3)%Qc -> (t3 < later)%Qc ->
  observe ((add_message m1 conversation_id t1 ;;
            add_message m3 conversation_id t3 ;;
            get_recent_memories conversation_id t2 10) s) = inl [m1]
  /\ observe ((add_message m1 conversation_id t1 ;;
               add_message m3 conversation_id t3 ;;
               get_recent_memories conversation_id later 10) s)
     = inl [m3; m1].
Proof.
  intros Hnew H12 H23 H3l.
  assert (H13 : (t1 < t3)%Qc) by now apply (Qclt_trans _ t2).
  assert (H1l : (t1 < later)%Qc) by now apply (Qclt_trans _ t3).
  assert (Hn32 : ~ (t3 < t2)%Qc).
  { intros H32. apply (Qclt_not_eq t2 t2); [|done].
    now apply (Qclt_trans _ t3). }
  assert (Hn31 : ~ (t3 < t1)%Qc).
  { intros H31. apply (Qclt_not_eq t1 t1); [|done].
    now apply (Qclt_trans _ t3). }
  assert (Hne : t1 <> t3) by (now apply Qclt_not_eq).
  unfold bind, add_message, get_recent_memories, recent_entries. simpl.
  rewrite !lookup_insert_eq, Hnew. simpl.
  rewrite !filter_cons, filter_nil. unfold qualifies at 1 2 3 4, stamp. simpl.
  rewrite (decide_True _ _ H12), (decide_False _ _ Hn32),
    (decide_True _ _ H1l), (decide_True _ _ H3l).
  simpl. unfold precedes, stamp. simpl.
  rewrite (bool_decide_eq_false_2 _ Hn31), (bool_decide_eq_false_2 _ Hne).
  split; reflexivity.
Qed.

Lemma get_recent_memories_spec_witness :
  exists picked : list (nat * entry),
    get_recent_memories "c" (Qc_of_Z 4) 2 diary
    = Returned (map (fun p => message (snd p)) picked) diary
    /\ (Z.of_nat (length (map (fun p => message (snd p)) picked)) <= 2)%Z
    /\ Forall (fun p =>
                 default [] (diary !! "c") !! position p = Some (snd p)
                 /\ (stamp p < Qc_of_Z 4)%Qc) picked
    /\ StronglySorted more_recent picked
    /\ length picked
       = Nat.min (Z.to_nat 2)
           (length (filter (fun e => (timestamp e < Qc_of_Z 4)%Qc)
                      (default [] (diary !! "c"))))
    /\ (diary !! "c" = None -> picked = []).
Proof. apply (get_recent_memories_spec diary "c" (Qc_of_Z 4) 2). lia. Defined.

End RecentMemories.

(** ** [BaseChatStoreMemory] with list objects *)

Section ListObjects.
Import ByReference.

Lemma put_on_held_list (self : BaseChatStoreMemory.t) message w held :
  own_list self w = Some held -> held < next_list w ->
  exists w',
    put self message w = Returned tt w'
    /\ dicts w' = dicts w
    /\ next_list w' = Datatypes.S (next_list w)
    /\ lists w' held = lists w held ++ [message]
    /\ forall l, l <> held -> l < next_list w -> lists w' l = lists w l.
Proof.
  intros Hown Hlt. unfold own_list in Hown.
  unfold put, add_message, bind, new_list, dict_setdefault. simpl.
  rewrite Hown. eexists. split; [reflexivity|]. simpl.
  split; [reflexivity|]. split; [reflexivity|].
  rewrite decide_True by reflexivity.
  rewrite (decide_False (P := held = next_list w)) by lia.
  split; [reflexivity|].
  intros l Hne Hl. rewrite decide_False by exact Hne.
  rewrite decide_False by lia. reflexivity.
Qed.

Lemma put_on_absent_key (self : BaseChatStoreMemory.t) message w :
  own_list self w = None ->
  exists w',
    put self message w = Returned tt w'
    /\ own_list self w' = Some (next_list w)
    /\ (forall store key, elsewhere self store key ->
          dicts w' store !! key = dicts w store !! key)
    /\ next_list w' = Datatypes.S (next_list w)
    /\ lists w' (next_list w) = [message]
    /\ forall l, l < next_list w -> lists w' l = lists w l.
Proof.
  intros Hown. unfold own_list in *.
  unfold put, add_message, bind, new_list, dict_setdefault. simpl.
  rewrite Hown. eexists. split; [reflexivity|]. simpl.
  rewrite !decide_True by reflexivity.
  split; [apply lookup_insert_eq|]. split.
  - intros store key [Hstore|Hkey].
    + now rewrite decide_False.
    + destruct (decide (store = BaseChatStoreMemory.chat_store self));
        [|reflexivity].
      subst store. apply lookup_insert_ne. congruence.
  - split; [reflexivity|]. split; [reflexivity|].
    intros l Hl. rewrite decide_False by lia.
    rewrite decide_False by lia. reflexivity.
Qed.

(** What one [put] does, when the list of the bound key is shared with no
    other key: it returns, appends to the sequence of the bound key,
    leaves every other sequence, keeps the objects in order, and does not
    touch a list that is apart. *)
Lemma put_step (self : BaseChatStoreMemory.t) message w :
  well_formed w -> unshared self w ->
  exists w',
    put self message w = Returned tt w'
    /\ well_formed w' /\ unshared self w'
    /\ sequence_at w' (BaseChatStoreMemory.chat_store self)
         (BaseChatStoreMemory.chat_store_key self)
       = sequence_at w (BaseChatStoreMemory.chat_store self)
           (BaseChatStoreMemory.chat_store_key self) ++ [message]
    /\ (forall store key, elsewhere self store key ->
          sequence_at w' store key = sequence_at w store key)
    /\ forall messages, apart self w messages ->
         apart self w' messages /\ lists w' messages = lists w messages.
Proof.
  intros Hwf Hun. destruct (own_list self w) as [held|] eqn:Hown.
  - assert (Hheld : held < next_list w) by (eapply Hwf; exact Hown).
    destruct (put_on_held_list self message w held Hown Hheld)
      as (w' & Hput & Hd & Hn & Hh & Hl).
    exists w'. split; [exact Hput|].
    assert (Hown' : own_list self w' = Some held).
    { unfold own_list in *. now rewrite Hd. }
    split; [|split; [|split; [|split]]].
    + intros store key l Hin. rewrite Hd in Hin. rewrite Hn.
      specialize (Hwf _ _ _ Hin). lia.
    + intros store key l Hel Hin. rewrite Hd in Hin. rewrite Hown', <- Hown.
      now apply (Hun store key).
    + unfold sequence_at. unfold own_list in Hown, Hown'.
      now rewrite Hown, Hown'.
    + intros store key Hel. unfold sequence_at. rewrite Hd.
      destruct (dicts w store !! key) as [l|] eqn:Hin; [|reflexivity].
      apply Hl; [|now apply (Hwf store key)].
      intros ->. apply (Hun store key held Hel Hin). exact Hown.
    + intros messages [Hm Hne]. split.
      * split; [rewrite Hn; lia|]. now rewrite Hown', <- Hown.
      * apply Hl; [|exact Hm]. intros ->. now apply Hne.
  - destruct (put_on_absent_key self message w Hown)
      as (w' & Hput & Hown' & Hd & Hn & Hnew & Hl).
    exists w'. split; [exact Hput|].
    assert (Hold : forall store key l,
               dicts w' store !! key = Some l ->
               l = next_list w \/ dicts w store !! key = Some l).
    { intros store key l Hin.
      destruct (decide (store = BaseChatStoreMemory.chat_store self))
        as [->|Hs].
      - destruct (decide (key = BaseChatStoreMemory.chat_store_key self))
          as [->|Hk].
        + left. unfold own_list in Hown'. congruence.
        + right. rewrite <- Hd; [exact Hin|now right].
      - right. rewrite <- Hd; [exact Hin|now left]. }
    split; [|split; [|split; [|split]]].
    + intros store key l Hin. rewrite Hn.
      destruct (Hold _ _ _ Hin) as [->|Hin']; [lia|].
      specialize (Hwf _ _ _ Hin'). lia.
    + intros store key l Hel Hin. rewrite Hown'.
      rewrite (Hd _ _ Hel) in Hin. specialize (Hwf _ _ _ Hin).
      intros [= <-]. lia.
    + unfold sequence_at. unfold own_list in Hown, Hown'.
      now rewrite Hown, Hown', Hnew.
    + intros store key Hel. unfold sequence_at. rewrite (Hd _ _ Hel).
      destruct (dicts w store !! key) as [l|] eqn:Hin; [|reflexivity].
      apply Hl. now apply (Hwf store key).
    + intros messages [Hm Hne]. split.
      * split; [rewrite Hn; lia|]. rewrite Hown'. intros [= <-]. lia.
      * now apply Hl.
Qed.

Lemma set_step (self : BaseChatStoreMemory.t) messages w :
  exists w',
    set self messages w = Returned tt w'
    /\ own_list self w' = Some messages
    /\ lists w' = lists w
    /\ forall store key, elsewhere self store key ->
         dicts w' store !! key = dicts w store !! key.
Proof.
  eexists. split; [reflexivity|]. simpl.
  split; [unfold own_list; simpl; rewrite decide_True by reflexivity;
          apply lookup_insert_eq|].
  split; [reflexivity|].
  intros store key [Hstore|Hkey].
  - now rewrite decide_False.
  - destruct (decide (store = BaseChatStoreMemory.chat_store self));
      [|reflexivity].
    subst store. apply lookup_insert_ne. congruence.
Qed.



(** The loop over a list object that no [put] changes: at each position
    it does what the loop over the rest of the sequence does. *)
Lemma for_each_put_from (put : ChatMessage -> M objects unit)
    (messages : ref) (I : objects -> Prop) :
  (forall message w0, I w0 ->
     I (final_state (put message w0))
     /\ lists (final_state (put message w0)) messages = lists w0 messages) ->
  forall fuel i w,
    I w -> length (lists w messages) - i < fuel ->
    for_each_put fuel put messages i w
    = Some (BaseMemory.put_messages put (drop i (lists w messages)) w).
Proof.
  intros Hput. induction fuel as [|fuel IH]; intros i w HI Hfuel; [lia|].
  simpl. destruct (lists w messages !! i) as [m|] eqn:Hi.
  - rewrite (drop_S _ _ _ Hi). simpl. unfold bind.
    destruct (Hput m w HI) as [HI1 Hsame].
    apply lookup_lt_Some in Hi.
    destruct (put m w) as [[] w1|e w1]; simpl in *; [|reflexivity].
    rewrite <- Hsame. apply IH; [exact HI1|]. rewrite Hsame. lia.
  - apply lookup_ge_None in Hi. now rewrite drop_ge.
Qed.

(** The loop over a list object that every [put] makes longer. *)
Lemma for_each_put_never_ends (put : ChatMessage -> M objects unit)
    (messages : ref) (I : objects -> Prop) :
  (forall message w0, I w0 ->
     exists w1, put message w0 = Returned tt w1 /\ I w1
       /\ length (lists w0 messages) < length (lists w1 messages)) ->
  forall fuel i w,
    I w -> i < length (lists w messages) ->
    for_each_put fuel put messages i w = None.
Proof.
  intros Hput. induction fuel as [|fuel IH]; intros i w HI Hi; [reflexivity|].
  simpl. destruct (lookup_lt_is_Some_2 _ _ Hi) as [m Hm]. rewrite Hm.
  destruct (Hput m w HI) as (w1 & Hrun & HI1 & Hlen). rewrite Hrun.
  apply IH; [exact HI1|lia].
Qed.



(** The sample objects are in order. *)
Lemma one_key_and_a_list_dicts store key l :
  dicts one_key_and_a_list store !! key = Some l ->
  store = 0 /\ key = "a" /\ l = 0.
Proof.
  unfold one_key_and_a_list. simpl.
  destruct (decide (store = 0)) as [->|Hstore].
  - intros Hin. apply lookup_insert_Some in Hin as [[<- <-]|[_ Hin]].
    + repeat split.
    + now rewrite lookup_empty in Hin.
  - intros Hin. now rewrite lookup_empty in Hin.
Qed.

Lemma one_key_and_a_list_well_formed : well_formed one_key_and_a_list.
Proof.
  intros store key l Hin.
  apply one_key_and_a_list_dicts in Hin as (_ & _ & ->). simpl. lia.
Qed.

Lemma one_key_and_a_list_unshared :
  unshared (memory_at 0 "a") one_key_and_a_list.
Proof.
  intros store key l [Hstore|Hkey] Hin;
    apply one_key_and_a_list_dicts in Hin as (-> & -> & _); simpl in *;
    congruence.
Qed.

Lemma one_key_and_a_list_apart :
  apart (memory_at 0 "a") one_key_and_a_list 1.
Proof. split; [simpl; lia|]. vm_compute. discriminate. Qed.


Example batch_over_a_list_apart :
  option_map (fun o => sequence_at (final_state o) 0 "a")
    (put_messages 3 (memory_at 0 "a") 1 one_key_and_a_list)
  = Some [hi; hello; hi].
Proof. vm_compute. reflexivity. Qed.

End ListObjects.
(** * Further properties *)

(** ** [BaseMemory.put_messages]: batches *)

Section Batches.
Context {St : Type}.
Variable put : ChatMessage -> M St unit.


Lemma put_messages_raised_split messages s e s' :
  BaseMemory.put_messages put messages s = Raised e s' ->
  exists before message after s1,
    messages = before ++ message :: after
    /\ BaseMemory.put_messages put before s = Returned tt s1
    /\ put message s1 = Raised e s'.
Proof.
  revert s. induction messages as [|m messages IH]; intros s Hrun; simpl in *.
  - discriminate.
  - unfold bind in Hrun. destruct (put m s) as [[] s0|e0 s0] eqn:Hput.
    + destruct (IH _ Hrun) as (before & m' & after & s1 & -> & Hb & Hf).
      exists (m :: before), m', after, s1. split; [reflexivity|].
      split; [|exact Hf]. simpl. unfold bind. now rewrite Hput.
    + injection Hrun as -> ->. exists [], m, messages, s.
      repeat split. exact Hput.
Qed.

(** X2: a batch raises only what one of its puts raised: when it raises,
    the messages split into those put with success, the one whose put
    raised this very exception and left this very state, and the rest. *)
Theorem put_messages_raises_only_from_put
    (messages : list ChatMessage) (s s' : St) (e : exception) :
  BaseMemory.put_messages put messages s = Raised e s' ->
  exists before message after s1,
    messages = before ++ message :: after
    /\ BaseMemory.put_messages put before s = Returned tt s1
    /\ put message s1 = Raised e s'.
Proof. apply put_messages_raised_split. Qed.

End Batches.

(** ** [BaseChatStoreMemory] over any backend: what reaches the store *)

Section Delegation.
Context {S : Type} {backend : BaseChatStore S}.
Import BaseChatStoreMemory.

Lemma same_heap_refl (w : heap S) : same_heap w w.
Proof. now split. Qed.

Lemma same_heap_trans (w1 w2 w3 : heap S) :
  same_heap w1 w2 -> same_heap w2 w3 -> same_heap w1 w3.
Proof.
  intros [Hn12 Hs12] [Hn23 Hs23]. split; [congruence|].
  intros r. now rewrite Hs12.
Qed.

Lemma same_outcome_refl {A} (o : outcome (heap S) A) : same_outcome o o.
Proof. split; [reflexivity|apply same_heap_refl]. Qed.

Lemma same_outcome_trans {A} (o1 o2 o3 : outcome (heap S) A) :
  same_outcome o1 o2 -> same_outcome o2 o3 -> same_outcome o1 o3.
Proof.
  intros [Ho12 Hh12] [Ho23 Hh23]. split; [congruence|].
  eapply same_heap_trans; eassumption.
Qed.

Lemma write_same_store (w : heap S) r :
  same_heap w (write r (store_at w r) w).
Proof.
  split; [reflexivity|]. intros r'. simpl.
  destruct (decide (r' = r)) as [->|]; reflexivity.
Qed.

Lemma write_twice (w : heap S) r s1 s2 :
  same_heap (write r s2 (write r s1 w)) (write r s2 w).
Proof.
  split; [reflexivity|]. intros r'. simpl.
  destruct (decide (r' = r)); reflexivity.
Qed.

Lemma on_store_through {A} r (c : M S A) (w : heap S) :
  on_store r c w = through r w (c (store_at w r)).
Proof. reflexivity. Qed.

(** A call on a store that has just been written runs on what was
    written. *)
Lemma on_store_after_write {A} r (c : M S A) s1 (w : heap S) :
  same_outcome (on_store r c (write r s1 w)) (through r w (c s1)).
Proof.
  rewrite on_store_through. simpl. rewrite decide_True by reflexivity.
  destruct (c s1) as [a s2|e s2]; simpl;
    (split; [reflexivity|apply write_twice]).
Qed.

Lemma batch_through r (f : ChatMessage -> M S unit) messages (w : heap S) :
  same_outcome
    (BaseMemory.put_messages (fun m => on_store r (f m)) messages w)
    (on_store r (BaseMemory.put_messages f messages) w).
Proof.
  revert w. induction messages as [|m messages IH]; intros w.
  - split; [reflexivity|]. apply write_same_store.
  - rewrite on_store_through. simpl. unfold bind.
    rewrite on_store_through.
    destruct (f m (store_at w r)) as [[] s1|e s1]; simpl.
    + eapply same_outcome_trans; [apply IH|apply on_store_after_write].
    + apply same_outcome_refl.
Qed.

Lemma await_through {A} r (c : Coroutine S A) (w : heap S) :
  same_outcome (await (on_store_async r c) w) (on_store r (await c) w).
Proof.
  revert w. induction c as [body|segment rest IH]; intros w; simpl.
  - apply same_outcome_refl.
  - rewrite (on_store_through r (segment ;; await rest)). unfold bind.
    rewrite on_store_through.
    destruct (segment (store_at w r)) as [[] s1|e s1]; simpl.
    + eapply same_outcome_trans; [apply IH|apply on_store_after_write].
    + apply same_outcome_refl.
Qed.

Lemma on_store_async_suspension_points {A} r (c : Coroutine S A) :
  suspension_points (on_store_async r c) = suspension_points c.
Proof. induction c as [|segment rest IH]; simpl; [reflexivity|now rewrite IH]. Qed.

(** X4: for any backend, the batch of a memory is one batch on its store:
    [put_messages] returns or raises what the loop of [add_message] under
    the bound key does on the store behind [chat_store], and leaves the
    heap as one call of that loop on the store would. *)
Theorem put_messages_is_batch_on_store
    (self : t) (messages : list ChatMessage) (w : heap S) :
  same_outcome
    (put_messages self messages w)
    (on_store (chat_store self)
       (BaseMemory.put_messages (add_message (chat_store_key self)) messages)
       w).
Proof. apply batch_through. Qed.

(** X5: for any backend, the [aput] of [BaseChatStoreMemory] adds no
    suspension point to those of the store's [async_add_message], and
    awaiting it returns or raises what awaiting the store's coroutine does
    on the store behind [chat_store]. *)
Theorem aput_is_the_store_coroutine
    (self : t) (message : ChatMessage) (w : heap S) :
  suspension_points (aput self message)
  = suspension_points (async_add_message (chat_store_key self) message)
  /\ same_outcome
       (await (aput self message) w)
       (on_store (chat_store self)
          (await (async_add_message (chat_store_key self) message)) w).
Proof.
  split; [apply on_store_async_suspension_points|apply await_through].
Qed.

End Delegation.

(** ** [BaseChatStoreMemory] over a backend that keeps the contract:
    sequences of operations and memories that share a store *)

Section Sequences.
Context {S : Type} {backend : BaseChatStore S} {contract : ChatStoreContract S}.
Import BaseChatStoreMemory.

Lemma perform_spec (self : t) (op : mutation) (w : heap S) :
  exists w', perform self op w = Returned tt w'
    /\ own_history self w' = effect op (own_history self w)
    /\ unchanged_elsewhere self w w'.
Proof.
  destruct op as [m|m|ms|ms|]; simpl.
  - apply put_spec.
  - apply aput_spec.
  - apply put_messages_spec.
  - apply set_spec.
  - apply reset_spec.
Qed.

Lemma sequence_spec (self : t) (ops : list mutation) (w : heap S) :
  exists w', in_turn (map (perform self) ops) w = Returned tt w'
    /\ own_history self w'
       = fold_left (fun h op => effect op h) ops (own_history self w)
    /\ unchanged_elsewhere self w w'.
Proof.
  revert w. induction ops as [|op ops IH]; intros w; simpl.
  - exists w. repeat split.
  - destruct (perform_spec self op w) as (w1 & Hop & Hown1 & Hel1).
    destruct (IH w1) as (w' & Hrest & Hown & Hel).
    exists w'. rewrite (bind_returned _ _ _ _ _ Hop).
    split; [exact Hrest|]. split.
    + now rewrite Hown, Hown1.
    + eapply unchanged_elsewhere_trans; eassumption.
Qed.

(** X9: a read changes nothing that a later call can observe: with a
    [get_all] of any memory made first, a sequence of operations followed
    by a [get_all] returns what it returns without it. *)
Theorem get_all_has_no_visible_effect
    (first writer reader : t) (ops : list mutation) (w : heap S) :
  observe ((get_all first ;;
            in_turn (map (perform writer) ops) ;; get_all reader) w)
  = observe ((in_turn (map (perform writer) ops) ;; get_all reader) w).
Proof.
  destruct (get_all_spec first w) as (w0 & Hget & Hsame).
  rewrite (bind_returned _ _ _ _ _ Hget).
  destruct (sequence_spec writer ops w0) as (w0' & Hrun0 & Hown0 & Hel0).
  destruct (sequence_spec writer ops w) as (w' & Hrun & Hown & Hel).
  rewrite (bind_returned _ _ _ _ _ Hrun0), (bind_returned _ _ _ _ _ Hrun).
  rewrite !observe_get_all. f_equal. unfold own_history in *.
  destruct (decide (chat_store reader = chat_store writer)) as [Hs|Hs].
  - destruct (decide (chat_store_key reader = chat_store_key writer))
      as [Hk|Hk].
    + now rewrite Hs, Hk, Hown0, Hown, Hsame.
    + rewrite Hel0, Hel by now right. apply Hsame.
  - rewrite Hel0, Hel by now left. apply Hsame.
Qed.

End Sequences.

(** ** The further properties at sample inputs *)

Lemma put_messages_raises_only_from_put_witness :
  exists before message after s1,
    [hi; hello] = before ++ message :: after
    /\ BaseMemory.put_messages (BaseChatStoreMemory.put (memory_at 0 "k"))
         before one_append_left = Returned tt s1
    /\ BaseChatStoreMemory.put (memory_at 0 "k") message s1
       = Raised (Exception "BackendUnavailable")
           (final_state
              (BaseChatStoreMemory.put_messages
                 (memory_at 0 "k") [hi; hello] one_append_left)).
Proof.
  apply (put_messages_raises_only_from_put
           (BaseChatStoreMemory.put (memory_at 0 "k")) [hi; hello]
           one_append_left).
  reflexivity.
Defined.

Lemma get_all_has_no_visible_effect_witness :
  observe
    ((BaseChatStoreMemory.get_all (memory_at 0 "other") ;;
      in_turn (map (perform (memory_at 0 "k")) [Put hello; Set_ [hi]]) ;;
      BaseChatStoreMemory.get_all (memory_at 0 "k")) one_store)
  = observe
      ((in_turn (map (perform (memory_at 0 "k")) [Put hello; Set_ [hi]]) ;;
        BaseChatStoreMemory.get_all (memory_at 0 "k")) one_store).
Proof.
  exact (get_all_has_no_visible_effect (contract := SimpleChatStore_contract)
           (memory_at 0 "other") (memory_at 0 "k") (memory_at 0 "k")
           [Put hello; Set_ [hi]] one_store).
Defined.

(** ** [put_messages] and [get_all] with list objects *)

Section LiveLists.
Import ByReference.

(** X3: the loop of [put_messages] over a list object that no [put]
    changes ends within one turn for each element of the list and one
    more, and does what the batch over the sequence the list holds does:
    one [put] for each element in order, up to the first that raises.  In
    particular it returns when no [put] raises. *)
Theorem put_messages_over_an_untouched_list
    (put : ChatMessage -> M objects unit) (messages : ref)
    (I : objects -> Prop) (w : objects) (fuel : nat) :
  (forall message w0, I w0 ->
     I (final_state (put message w0))
     /\ lists (final_state (put message w0)) messages = lists w0 messages) ->
  I w ->
  length (lists w messages) < fuel ->
  for_each_put fuel put messages 0 w
  = Some (BaseMemory.put_messages put (lists w messages) w).
Proof.
  intros Hput HI Hfuel.
  rewrite (for_each_put_from put messages I Hput fuel 0 w HI) by lia.
  now rewrite drop_0.
Qed.

Lemma puts_on_held_list (self : BaseChatStoreMemory.t) messages w held :
  own_list self w = Some held -> held < next_list w ->
  exists w',
    in_turn (map (put self) messages) w = Returned tt w'
    /\ own_list self w' = Some held
    /\ held < next_list w'
    /\ lists w' held = lists w held ++ messages.
Proof.
  revert w. induction messages as [|m messages IH]; intros w Hown Hlt; simpl.
  - exists w. unfold ret. now rewrite app_nil_r.
  - destruct (put_on_held_list self m w held Hown Hlt)
      as (w1 & Hput & Hd & Hn & Hh & _).
    assert (Hown1 : own_list self w1 = Some held).
    { unfold own_list in *. now rewrite Hd. }
    destruct (IH w1 Hown1) as (w' & Hrest & Hown' & Hlt' & Hh'); [lia|].
    exists w'. rewrite (bind_returned _ _ _ _ _ Hput).
    split; [exact Hrest|]. split; [exact Hown'|]. split; [exact Hlt'|].
    now rewrite Hh', Hh, <- app_assoc.
Qed.

Lemma get_all_of_held_list (self : BaseChatStoreMemory.t) w held :
  own_list self w = Some held -> held < next_list w ->
  exists w',
    get_all self w = Returned held w'
    /\ own_list self w' = Some held
    /\ held < next_list w'
    /\ lists w' held = lists w held.
Proof.
  intros Hown Hlt. unfold own_list in *.
  unfold get_all, get_messages, bind, new_list, dict_get. simpl.
  rewrite Hown. eexists. split; [reflexivity|]. simpl.
  split; [exact Hown|]. split; [lia|]. now rewrite decide_False by lia.
Qed.

(** X10: [get_all] returns the list object the store holds, and [put]
    appends to that object: when the bound key holds a list, [set] with
    what [get_all] returned earlier does not bring back the history of
    that time; the history stays what the puts made since have left. *)
Theorem set_with_the_list_of_get_all_keeps_later_puts
    (self : BaseChatStoreMemory.t) (messages : list ChatMessage)
    (w : objects) (held : ref) :
  well_formed w ->
  own_list self w = Some held ->
  observe ((h <- get_all self ;;
            in_turn (map (put self) messages) ;;
            set self h ;;
            h' <- get_all self ;;
            contents h') w)
  = inl (lists w held ++ messages).
Proof.
  intros Hwf Hown.
  assert (Hlt : held < next_list w) by (eapply Hwf; exact Hown).
  destruct (get_all_of_held_list self w held Hown Hlt)
    as (w1 & Hget & Hown1 & Hlt1 & Hh1).
  rewrite (bind_returned _ _ _ _ _ Hget).
  destruct (puts_on_held_list self messages w1 held Hown1 Hlt1)
    as (w2 & Hputs & Hown2 & Hlt2 & Hh2).
  rewrite (bind_returned _ _ _ _ _ Hputs).
  destruct (set_step self held w2) as (w3 & Hset & Hown3 & Hl3 & _).
  rewrite (bind_returned _ _ _ _ _ Hset).
  assert (Hlt3 : held < next_list w3).
  { unfold set, set_messages, dict_set in Hset. injection Hset as <-.
    exact Hlt2. }
  destruct (get_all_of_held_list self w3 held Hown3 Hlt3)
    as (w4 & Hget4 & _ & _ & Hh4).
  rewrite (bind_returned _ _ _ _ _ Hget4). unfold contents. simpl.
  now rewrite Hh4, Hl3, Hh2, Hh1.
Qed.

(** X13: [put_messages] over the list object that the bound key holds,
    which is what [get_all] returns, does not return when that list is
    not empty: each [put] appends to the list the loop runs over, so the
    loop has not ended after any number of turns. *)
Theorem put_messages_over_the_bound_list_never_returns
    (self : BaseChatStoreMemory.t) (messages : ref) (w : objects)
    (fuel : nat) :
  well_formed w ->
  own_list self w = Some messages ->
  lists w messages <> [] ->
  observe (get_all self w) = inl messages
  /\ put_messages fuel self messages w = None.
Proof.
  intros Hwf Hown Hfull.
  assert (Hlt : messages < next_list w) by (eapply Hwf; exact Hown).
  split.
  { destruct (get_all_of_held_list self w messages Hown Hlt)
      as (w1 & Hget & _). now rewrite Hget. }
  unfold put_messages.
  apply (for_each_put_never_ends (put self) messages
           (fun w0 => own_list self w0 = Some messages
                      /\ messages < next_list w0)).
  - intros m w0 [Hown0 Hlt0].
    destruct (put_on_held_list self m w0 messages Hown0 Hlt0)
      as (w1 & Hput & Hd & Hn & Hh & _).
    exists w1. split; [exact Hput|]. split.
    + split; [unfold own_list in *; now rewrite Hd|lia].
    + rewrite Hh, length_app. simpl. lia.
  - now split.
  - destruct (lists w messages); [congruence|simpl; lia].
Qed.

End LiveLists.

Lemma put_messages_over_an_untouched_list_witness :
  ByReference.for_each_put 3 (ByReference.put (memory_at 0 "a")) 1 0
    ByReference.one_key_and_a_list
  = Some (BaseMemory.put_messages (ByReference.put (memory_at 0 "a"))
            (ByReference.lists ByReference.one_key_and_a_list 1)
            ByReference.one_key_and_a_list).
Proof.
  apply (put_messages_over_an_untouched_list
           (ByReference.put (memory_at 0 "a")) 1
           (fun w0 => ByReference.well_formed w0
                      /\ ByReference.unshared (memory_at 0 "a") w0
                      /\ ByReference.apart (memory_at 0 "a") w0 1)).
  - intros m w0 (Hwf0 & Hun0 & Hap0).
    destruct (put_step (memory_at 0 "a") m w0 Hwf0 Hun0)
      as (w1 & Hput & Hwf1 & Hun1 & _ & _ & Hap).
    rewrite Hput. simpl. destruct (Hap 1 Hap0) as [Hap1 Hsame].
    split; [|exact Hsame]. split; [exact Hwf1|]. split; [exact Hun1|].
    exact Hap1.
  - split; [exact one_key_and_a_list_well_formed|].
    split; [exact one_key_and_a_list_unshared|].
    exact one_key_and_a_list_apart.
  - simpl. lia.
Defined.

Lemma set_with_the_list_of_get_all_keeps_later_puts_witness :
  observe
    ((h <- ByReference.get_all (memory_at 0 "a") ;;
      in_turn (map (ByReference.put (memory_at 0 "a")) [hello]) ;;
      ByReference.set (memory_at 0 "a") h ;;
      h' <- ByReference.get_all (memory_at 0 "a") ;;
      ByReference.contents h') ByReference.one_key_and_a_list)
  = inl (ByReference.lists ByReference.one_key_and_a_list 0 ++ [hello]).
Proof.
  apply (set_with_the_list_of_get_all_keeps_later_puts
           (memory_at 0 "a") [hello] ByReference.one_key_and_a_list 0).
  - exact one_key_and_a_list_well_formed.
  - reflexivity.
Defined.

Lemma put_messages_over_the_bound_list_never_returns_witness :
  observe (ByReference.get_all (memory_at 0 "a")
             ByReference.one_key_and_a_list) = inl 0
  /\ ByReference.put_messages 1000 (memory_at 0 "a") 0
       ByReference.one_key_and_a_list = None.
Proof.
  apply (put_messages_over_the_bound_list_never_returns
           (memory_at 0 "a") 0 ByReference.one_key_and_a_list 1000).
  - exact one_key_and_a_list_well_formed.
  - reflexivity.
  - discriminate.
Defined.
